(** * arkcoin/key.go: key pairs, WIF import/export and address derivation

    A shallow embedding of [src/arkcoin/key.go].  Go slices of bytes are
    lists of [Byte.byte], Go strings are [string], [*big.Int] scalars are [Z]
    (always non-negative here), and a Go call that can return an error, panic
    or stop the process returns an [outcome].

    The packages the file imports are not part of it: the curve
    ([btcec]/[crypto/elliptic]), the digests ([crypto/sha256],
    [x/crypto/ripemd160]) and the base58 codec ([arkcoin/base58]) are class
    parameters of the development. *)

From Stdlib Require Import ZArith Lia String Ascii.
From Stdlib Require Import Strings.Byte.
From stdpp Require Import base list.

Local Open Scope Z_scope.

(** ** Go values: errors, panics, outcomes of a call *)

(** A Go [error] is modelled by its [Error()] text. *)
Definition error : Type := string.

(** Run-time panics that slice code can raise. *)
Inductive panic : Type :=
  | IndexOutOfRange (i : Z) (len : nat)
  | SliceBoundsOutOfRange (lo hi : Z) (len : nat).

(** What a call does: return a value, return a non-nil [error], panic, or
    end the process through [log.Fatal]. *)
Inductive outcome (A : Type) : Type :=
  | Ret (a : A)
  | Err (e : error)
  | Panicked (p : panic)
  | Fatal (e : error).

Arguments Ret {A} a.
Arguments Err {A} e.
Arguments Panicked {A} p.
Arguments Fatal {A} e.

(** Sequencing, in stdpp's monad notation [x ← m; k]: anything but a returned
    value ends the caller as well ([if err != nil { return nil, err }], an
    unrecovered panic, [os.Exit]). *)
Global Instance outcome_ret : MRet outcome := @Ret.

Global Instance outcome_bind : MBind outcome := fun A B f m =>
  match m with
  | Ret a => f a
  | Err e => Err e
  | Panicked p => Panicked p
  | Fatal e => Fatal e
  end.

Global Instance outcome_fmap : FMap outcome := fun A B f m =>
  match m with
  | Ret a => Ret (f a)
  | Err e => Err e
  | Panicked p => Panicked p
  | Fatal e => Fatal e
  end.

Definition returns {A : Type} (o : outcome A) : Prop := exists a, o = Ret a.
Definition fails {A : Type} (o : outcome A) : Prop := exists e, o = Err e.
Definition panics {A : Type} (o : outcome A) : Prop := exists p, o = Panicked p.

(** ** Go slices of bytes *)

Global Instance byte_eq_decision : EqDecision byte.
Proof.
  intros x y. destruct (Byte.eqb x y) eqn:E.
  - left. by apply Byte.byte_dec_bl.
  - right. by apply Byte.eqb_false.
Defined.

Module Slice.

(** [s[i]]: bounds-checked load. *)
Definition index (s : list byte) (i : Z) : outcome byte :=
  if (0 <=? i) && (i <? Z.of_nat (length s)) then
    match s !! Z.to_nat i with
    | Some b => Ret b
    | None => Panicked (IndexOutOfRange i (length s))
    end
  else Panicked (IndexOutOfRange i (length s)).

(** [s[i] = b]: bounds-checked store. *)
Definition store (s : list byte) (i : Z) (b : byte) : outcome (list byte) :=
  if (0 <=? i) && (i <? Z.of_nat (length s)) then Ret (<[Z.to_nat i := b]> s)
  else Panicked (IndexOutOfRange i (length s)).

(** [s[lo:]] *)
Definition from (s : list byte) (lo : Z) : outcome (list byte) :=
  if (0 <=? lo) && (lo <=? Z.of_nat (length s)) then Ret (drop (Z.to_nat lo) s)
  else Panicked (SliceBoundsOutOfRange lo (Z.of_nat (length s)) (length s)).

(** [s[:hi]] (the slices of this file have no spare capacity that is read) *)
Definition upto (s : list byte) (hi : Z) : outcome (list byte) :=
  if (0 <=? hi) && (hi <=? Z.of_nat (length s)) then Ret (take (Z.to_nat hi) s)
  else Panicked (SliceBoundsOutOfRange 0 hi (length s)).

(** [append(s, b)] *)
Definition append (s : list byte) (b : byte) : list byte := s ++ [b].

(** [copy(s[lo:], src)] where [src] was read from [s] before the call: the
    first [min (len s - lo) (len src)] bytes of [src] land at [s[lo..]];
    Go's [copy] behaves as if [src] were copied aside first. *)
Definition copy_at (s : list byte) (lo : nat) (src : list byte) : list byte :=
  let n := Nat.min (length s - lo) (length src) in
  take lo s ++ take n src ++ drop (lo + n) s.

End Slice.

(** ** [math/big]: the two conversions the file relies on *)

Module BigInt.

Definition byte_to_Z (b : byte) : Z := Z.of_N (Byte.to_N b).

Definition byte_of_Z (z : Z) : byte :=
  match Byte.of_N (Z.to_N (z mod 256)) with
  | Some b => b
  | None => x00
  end.

(** [new(big.Int).SetBytes(buf)]: [buf] read as a big-endian unsigned
    integer. *)
Definition SetBytes (buf : list byte) : Z :=
  fold_left (fun acc b => acc * 256 + byte_to_Z b) buf 0.

(** Little-endian base-256 digits of [n], without leading zeros. *)
Fixpoint digits_le (fuel : nat) (n : Z) : list byte :=
  match fuel with
  | O => []
  | S fuel' =>
      if n <=? 0 then [] else byte_of_Z n :: digits_le fuel' (n / 256)
  end.

Definition bit_length (n : Z) : nat :=
  match n with
  | Zpos p => Pos.size_nat p
  | _ => O
  end.

(** [x.Bytes()]: the big-endian bytes of [|x|] without leading zeros. *)
Definition Bytes (n : Z) : list byte :=
  rev (digits_le (bit_length (Z.abs n)) (Z.abs n)).

End BigInt.

(** ** [hash.Hash]: [New], [Write], [Sum]

    A running hash keeps what was written to it; [Sum(b)] appends the digest
    of everything written to [b].  [Write] "never returns an error"
    (package [hash]), and both implementations used here return a nil error. *)

Record Hash : Type := {
  hash_digest : list byte -> list byte;
  hash_written : list byte
}.

Definition Hash_New (digest : list byte -> list byte) : Hash :=
  {| hash_digest := digest; hash_written := [] |}.

Definition Hash_Write (h : Hash) (p : list byte) : Hash * (nat * option error) :=
  ({| hash_digest := hash_digest h; hash_written := hash_written h ++ p |},
   (length p, None)).

Definition Hash_Sum (h : Hash) (b : list byte) : list byte :=
  b ++ hash_digest h (hash_written h).

(** ** The imported packages, as interfaces *)

(** [crypto/sha256]: the 256-bit digest. *)
Class SHA256 := sha256_digest : list byte -> list byte.

(** [golang.org/x/crypto/ripemd160]: the 160-bit digest. *)
Class RIPEMD160 := ripemd160_digest : list byte -> list byte.

(** [arkcoin/base58]: [Encode(b []byte) string] and
    [Decode(s string) ([]byte, error)]. *)
Class Base58 := {
  base58_Encode : list byte -> string;
  base58_Decode : string -> outcome (list byte)
}.

(** [btcec.S256()] with the [btcec] functions the file calls.  The group is
    given by its generator and the multiplication of a point by an integer;
    signatures and point encodings are opaque. *)
Class Curve := {
  Point : Type;
  generator : Point;
  scalar_mul : Z -> Point -> Point;
  SerializeCompressed : Point -> list byte;
  SerializeUncompressed : Point -> list byte;
  ParsePubKey : list byte -> outcome Point;
  Signature : Type;
  ecdsa_Sign : Z -> list byte -> outcome Signature;
  Signature_Serialize : Signature -> list byte;
  ParseSignature : list byte -> outcome Signature;
  Signature_Verify : Signature -> list byte -> Point -> bool
}.

(** The order of the secp256k1 group. *)
Definition secp256k1_N : Z :=
  0xFFFFFFFFFFFFFFFFFFFFFFFFFFFFFFFEBAAEDCE6AF48A03BBFD25E8CD0364141.

(** A scalar is valid for the curve when it lies in [1, N-1]. *)
Definition valid_scalar (d : Z) : bool := (0 <? d) && (d <? secp256k1_N).

Module btcec.
Section WithCurve.
Context `{Curve}.

Definition PrivKeyBytesLen : Z := 32.
Definition PubKeyBytesLenCompressed : Z := 33.

(** [ecdsa.PrivateKey]: the public point and the scalar [D]. *)
Record PrivateKey : Type := {
  PubKey : Point;
  D : Z
}.

(** [curve.ScalarBaseMult(k)]: "k*G, where G is the base point of the group
    and k is an integer in big-endian form". *)
Definition ScalarBaseMult (k : list byte) : Point :=
  scalar_mul (BigInt.SetBytes k) generator.

(** [PrivKeyFromBytes(curve, pk)]: no check on [pk]; the second result is
    the address of the first one's public key. *)
Definition PrivKeyFromBytes (pk : list byte) : PrivateKey * Point :=
  let pt := ScalarBaseMult pk in
  let priv := {| PubKey := pt; D := BigInt.SetBytes pk |} in
  (priv, PubKey priv).

(** [paddedAppend(size, dst, src)] *)
Definition paddedAppend (size : Z) (dst src : list byte) : list byte :=
  (dst ++ replicate (Z.to_nat (size - Z.of_nat (length src))) x00) ++ src.

(** [(p *PrivateKey) Serialize()] *)
Definition Serialize (p : PrivateKey) : list byte :=
  paddedAppend PrivKeyBytesLen [] (BigInt.Bytes (D p)).

(** [NewPrivateKey(curve)] is [ecdsa.GenerateKey(curve, rand.Reader)]:
    [entropy] is what reading the entropy source gave, the bytes or the
    error; the scalar is drawn as [SetBytes(b) mod (N-1) + 1]. *)
Definition NewPrivateKey (entropy : outcome (list byte)) : outcome PrivateKey :=
  b ← entropy;
  let k := BigInt.SetBytes b mod (secp256k1_N - 1) + 1 in
  mret {| PubKey := ScalarBaseMult (BigInt.Bytes k); D := k |}.

End WithCurve.
End btcec.

(** ** [key.go] *)

(** [Params]: parameters of the coin. *)
Record Params : Type := {
  DumpedPrivateKeyHeader : list byte;
  AddressHeader : byte;
  P2SHHeader : byte;
  HDPrivateKeyID : list byte;
  HDPublicKeyID : list byte
}.

Section Key.
Context `{Curve} `{Base58} `{SHA256} `{RIPEMD160}.

(** [PublicKey]: the embedded [*btcec.PublicKey], the compression flag and
    the coin's parameters. *)
Record PublicKey : Type := {
  pub_key : Point;
  isCompressed : bool;
  param : Params
}.

(** [PrivateKey]: the embedded [*btcec.PrivateKey] and the [PublicKey]
    field. *)
Record PrivateKey : Type := {
  priv_key : btcec.PrivateKey;
  priv_PublicKey : PublicKey
}.

Definition NewPublicKey (pubKeyByte : list byte) (param : Params)
  : outcome PublicKey :=
  key ← ParsePubKey pubKeyByte;
  let isCompressed :=
    if Z.of_nat (length pubKeyByte) =? btcec.PubKeyBytesLenCompressed
    then true else false in
  mret {| pub_key := key; isCompressed := isCompressed; param := param |}.

(** The loop of [FromWIF] over [param.DumpedPrivateKeyHeader]: [pb[0]] is
    read once per candidate header. *)
Fixpoint header_loop (pb hs : list byte) (ok : bool) : outcome bool :=
  match hs with
  | [] => mret ok
  | h :: hs' =>
      b ← Slice.index pb 0;
      header_loop pb hs' (if Byte.eqb b h then true else ok)
  end.

(** [FromWIF] ([log.Println], which only writes to the standard logger, is
    left out). *)
Definition FromWIF (wif : string) (param : Params) : outcome PrivateKey :=
  pb ← base58_Decode wif;
  ok ← header_loop pb (DumpedPrivateKeyHeader param) false;
  if negb ok then Err "wif is invalid"%string
  else
    '(pb, isCompressed) ←
      (if Z.of_nat (length pb) =? btcec.PrivKeyBytesLen + 2 then
         flag ← Slice.index pb (btcec.PrivKeyBytesLen + 1);
         if Byte.eqb flag x01 then
           pb' ← Slice.upto pb (Z.of_nat (length pb) - 1);
           mret (pb', true)
         else mret (pb, false)
       else mret (pb, false));
    raw ← Slice.from pb 1;
    let '(priv, pub) := btcec.PrivKeyFromBytes raw in
    mret {| priv_key := priv;
            priv_PublicKey := {| pub_key := pub;
                                 isCompressed := isCompressed;
                                 param := param |} |}.

Definition NewPrivateKey (pb : list byte) (param : Params) : PrivateKey :=
  let '(priv, pub) := btcec.PrivKeyFromBytes pb in
  {| priv_key := priv;
     priv_PublicKey := {| pub_key := pub;
                          isCompressed := true;
                          param := param |} |}.

Definition NewPrivateKeyFromPassword (password : string) (param : Params)
  : PrivateKey :=
  let h := Hash_New sha256_digest in
  let h := fst (Hash_Write h (list_byte_of_string password)) in
  let pb := Hash_Sum h [] in
  NewPrivateKey pb param.


Definition PrivateKey_Sign (priv : PrivateKey) (hash : list byte)
  : outcome (list byte) :=
  sig ← ecdsa_Sign (btcec.D (priv_key priv)) hash;
  mret (Signature_Serialize sig).

Definition PrivateKey_WIFAddress (priv : PrivateKey) : outcome string :=
  let p := btcec.Serialize (priv_key priv) in
  let p := if isCompressed (priv_PublicKey priv) then Slice.append p x01 else p in
  let p := Slice.append p x00 in
  dst ← Slice.from p 1;
  src ← Slice.upto p (Z.of_nat (length p) - 1);
  let p := Slice.copy_at p 1 src in
  h ← Slice.index (DumpedPrivateKeyHeader (param (priv_PublicKey priv))) 0;
  p ← Slice.store p 0 h;
  mret (base58_Encode p).

Definition PublicKey_Serialize (pub : PublicKey) : list byte :=
  if isCompressed pub then SerializeCompressed (pub_key pub)
  else SerializeUncompressed (pub_key pub).

(** [(pub *PublicKey) AddressBytes()]; the [sha256.Sum256] line is a
    comment in the source. *)
Definition PublicKey_AddressBytes (pub : PublicKey) : outcome (list byte) :=
  let shadPublicKeyBytes := PublicKey_Serialize pub in
  let ripeHash := Hash_New ripemd160_digest in
  let '(ripeHash, (_, err)) := Hash_Write ripeHash shadPublicKeyBytes in
  match err with
  | Some e => Fatal e
  | None => mret (Hash_Sum ripeHash [])
  end.

Definition PublicKey_Address (pub : PublicKey) : outcome string :=
  ripeHashedBytes ← PublicKey_AddressBytes pub;
  let ripeHashedBytes := Slice.append ripeHashedBytes x00 in
  dst ← Slice.from ripeHashedBytes 1;
  src ← Slice.upto ripeHashedBytes (Z.of_nat (length ripeHashedBytes) - 1);
  let ripeHashedBytes := Slice.copy_at ripeHashedBytes 1 src in
  ripeHashedBytes ← Slice.store ripeHashedBytes 0 (AddressHeader (param pub));
  mret (base58_Encode ripeHashedBytes).

Definition DecodeAddress (addr : string) : outcome (list byte) :=
  pb ← base58_Decode addr;
  Slice.from pb 1.

(** [Verify] returns an [error]: nil is [Ret tt]. *)
Definition PublicKey_Verify (pub : PublicKey) (signature data : list byte)
  : outcome unit :=
  sig ← ParseSignature signature;
  let valid := Signature_Verify sig data (pub_key pub) in
  if negb valid then Err "signature is invalid"%string
  else mret tt.

(** [AddressBytes(redeem)]; here too the [sha256.Sum256] line is a comment. *)
Definition AddressBytes (redeem : list byte) : outcome (list byte) :=
  let h := redeem in
  let ripeHash := Hash_New ripemd160_digest in
  let '(ripeHash, (_, err)) := Hash_Write ripeHash h in
  match err with
  | Some e => Fatal e
  | None => mret (Hash_Sum ripeHash [])
  end.

Definition Address (redeem : list byte) (header : byte) : outcome string :=
  ripeHashedBytes ← AddressBytes redeem;
  let ripeHashedBytes := Slice.append ripeHashedBytes x00 in
  dst ← Slice.from ripeHashedBytes 1;
  src ← Slice.upto ripeHashedBytes (Z.of_nat (length ripeHashedBytes) - 1);
  let ripeHashedBytes := Slice.copy_at ripeHashedBytes 1 src in
  ripeHashedBytes ← Slice.store ripeHashedBytes 0 header;
  mret (base58_Encode ripeHashedBytes).

End Key.

(** ** Calls on a key, threading the key

    The methods take pointer receivers, so a call could write through them.
    None of the six bodies assigns to a field of its receiver, and every
    slice they write to ([Serialize()], [Sum(nil)]) is freshly allocated:
    the key after a call is the key before it. *)

Section Calls.
Context `{Curve} `{Base58} `{SHA256} `{RIPEMD160}.






End Calls.

(** ** A base58 codec

    Modelled from the spec: package [arkcoin/base58] ([Encode], [Decode]) is
    not among the sources; the spec gives it as a reversible byte/string
    function over the base58 alphabet, each leading [0x00] byte mapping to one
    leading ['1'], decoding failing on a character outside the alphabet. *)

Module Base58Codec.

Definition alphabet : list ascii :=
  list_ascii_of_string
    "123456789ABCDEFGHJKLMNPQRSTUVWXYZabcdefghijkmnopqrstuvwxyz".

Definition digit_char (d : Z) : ascii := nth (Z.to_nat d) alphabet "1"%char.

Fixpoint find_index (c : ascii) (l : list ascii) (i : Z) : option Z :=
  match l with
  | [] => None
  | x :: l' => if Ascii.eqb c x then Some i else find_index c l' (i + 1)
  end.

Definition char_digit (c : ascii) : option Z := find_index c alphabet 0.

(** Little-endian base-58 digits of [n], without leading zeros. *)
Fixpoint digits58_le (fuel : nat) (n : Z) : list Z :=
  match fuel with
  | O => []
  | S fuel' => if n <=? 0 then [] else n mod 58 :: digits58_le fuel' (n / 58)
  end.

Fixpoint leading_zero_bytes (b : list byte) : nat :=
  match b with
  | a :: b' => if Byte.eqb a x00 then S (leading_zero_bytes b') else O
  | [] => O
  end.

Definition Encode (b : list byte) : string :=
  let n := BigInt.SetBytes b in
  let digits := rev (digits58_le (BigInt.bit_length n) n) in
  string_of_list_ascii
    (replicate (leading_zero_bytes b) "1"%char ++ map digit_char digits).

Fixpoint leading_ones (s : list ascii) : nat :=
  match s with
  | c :: s' => if Ascii.eqb c "1"%char then S (leading_ones s') else O
  | [] => O
  end.

Fixpoint value58 (s : list ascii) (acc : Z) : outcome Z :=
  match s with
  | [] => Ret acc
  | c :: s' =>
      match char_digit c with
      | Some d => value58 s' (acc * 58 + d)
      | None => Err "invalid base58 character"%string
      end
  end.

Definition Decode (s : string) : outcome (list byte) :=
  let cs := list_ascii_of_string s in
  n ← value58 cs 0;
  mret (replicate (leading_ones cs) x00 ++ BigInt.Bytes n).

Definition codec : Base58 :=
  {| base58_Encode := Encode; base58_Decode := Decode |}.

End Base58Codec.

(** ** Sample instances of the opaque packages

    Used to run the definitions on concrete inputs.  The curve is the
    secp256k1 group in discrete-logarithm form: the point [k*G] is the residue
    [k mod N], the generator is [1].  The digests are placeholders of the
    right output length. *)

Module Sample.

Definition fixed_width (n : nat) (b : list byte) : list byte :=
  replicate (n - length b) x00 ++ drop (length b - n) b.

Fixpoint bytes_eqb (a b : list byte) : bool :=
  match a, b with
  | [], [] => true
  | x :: a', y :: b' => Byte.eqb x y && bytes_eqb a' b'
  | _, _ => false
  end.

Definition curve : Curve :=
  {| Point := Z;
     generator := 1;
     scalar_mul := fun k P => (k * P) mod secp256k1_N;
     SerializeCompressed := fun P => x02 :: fixed_width 32 (BigInt.Bytes P);
     SerializeUncompressed := fun P =>
       x04 :: fixed_width 32 (BigInt.Bytes P) ++ fixed_width 32 (BigInt.Bytes P);
     ParsePubKey := fun b =>
       match b with
       | x02 :: r => Ret (BigInt.SetBytes r)
       | x04 :: r => Ret (BigInt.SetBytes (take 32 r))
       | _ => Err "invalid public key"%string
       end;
     Signature := list byte * Z;
     ecdsa_Sign := fun d hash => Ret (hash, d mod secp256k1_N);
     Signature_Serialize := fun sig => fixed_width 32 (BigInt.Bytes (snd sig)) ++ fst sig;
     ParseSignature := fun b =>
       if (length b <? 32)%nat then Err "malformed signature"%string
       else Ret (drop 32 b, BigInt.SetBytes (take 32 b));
     Signature_Verify := fun sig data P =>
       bytes_eqb (fst sig) data && (snd sig =? P) |}.

Definition sha256 : SHA256 := fun b => fixed_width 32 b.
Definition ripemd160 : RIPEMD160 := fun b => fixed_width 20 b.

Definition params : Params :=
  {| DumpedPrivateKeyHeader := [xaa];
     AddressHeader := x17;
     P2SHHeader := x05;
     HDPrivateKeyID := [x04; x88; xad; xe4];
     HDPublicKeyID := [x04; x88; xb2; x1e] |}.

End Sample.

(** ** Vocabulary of the statements *)

Section Vocabulary.
Context `{Curve} `{Base58}.

(** The key that [btcec.PrivKeyFromBytes] builds from [raw], with a
    compression flag and parameters. *)
Definition key_of_bytes (raw : list byte) (compressed : bool) (param : Params)
  : PrivateKey :=
  {| priv_key := {| btcec.PubKey := btcec.ScalarBaseMult raw;
                    btcec.D := BigInt.SetBytes raw |};
     priv_PublicKey := {| pub_key := btcec.ScalarBaseMult raw;
                          isCompressed := compressed;
                          param := param |} |}.

(** The bytes of a WIF string after its header: the serialised scalar, and
    [0x01] for a compressed key. *)
Definition wif_payload (priv : PrivateKey) : list byte :=
  btcec.Serialize (priv_key priv)
  ++ (if isCompressed (priv_PublicKey priv) then [x01] else []).

(** The codec is reversible: decoding what it encoded gives the bytes back. *)
Definition reversible : Prop :=
  forall b : list byte, base58_Decode (base58_Encode b) = Ret b.

End Vocabulary.

(** ** Concrete inputs *)

Module Examples.

#[local] Existing Instances Sample.curve Base58Codec.codec.

Definition scalar5 : list byte := replicate 31 x00 ++ [x05].
Definition scalar7 : list byte := replicate 31 x00 ++ [x07].
Definition zeros32 : list byte := replicate 32 x00.
Definition ones32 : list byte := replicate 32 xff.

(** A compressed key, as [NewPrivateKey] builds it. *)
Definition key5 : PrivateKey := NewPrivateKey scalar5 Sample.params.

(** An uncompressed key, as [FromWIF] builds it from a 33-byte decoding. *)
Definition key7 : PrivateKey := key_of_bytes scalar7 false Sample.params.

(** The WIF strings of [key5] and [key7]. *)
Definition wif5 : string := "4qu99JgYZxSGz6AFwwj9et2QzCrPWGBz7KcsRy35hBfifCc".
Definition wif7 : string := "sW2r1P6nyy2Mdy281cqBPtXMfUxPweP15DfAHKbbUnvr2".

(** Strings that decode to [[0xaa; 0x05]], [[0xbb; 0x05]] and
    [[0x17; 0x05]]. *)
Definition short_wif : string := "DwS".
Definition foreign_wif : string := "FEU".
Definition short_address : string := "2kc".

(** Parameters with two candidate WIF headers, [0xbb] first. *)
Definition params_two_headers : Params :=
  {| DumpedPrivateKeyHeader := [xbb; xaa];
     AddressHeader := x17;
     P2SHHeader := x05;
     HDPrivateKeyID := [];
     HDPublicKeyID := [] |}.

(** A compressed key whose scalar is 2^256, as [NewPrivateKey] builds it from
    33 bytes. *)
Definition oversized_key : PrivateKey := NewPrivateKey (x01 :: zeros32) Sample.params.

(** A message hash. *)
Definition hash32 : list byte := replicate 32 x11.

End Examples.

(** * Properties *)

(** ** Outcomes *)

Lemma Ret_inj {A : Type} (a b : A) : Ret a = Ret b -> a = b.
Proof. by intros [= ->]. Qed.

Lemma bind_Ret {A B : Type} (a : A) (f : A -> outcome B) : (Ret a ≫= f) = f a.
Proof. reflexivity. Qed.

(** ** Big-endian integers *)

Lemma byte_to_Z_range (b : byte) : 0 <= BigInt.byte_to_Z b < 256.
Proof.
  unfold BigInt.byte_to_Z. pose proof (Byte.to_N_bounded b). lia.
Qed.

Lemma byte_to_Z_of_Z (z : Z) : BigInt.byte_to_Z (BigInt.byte_of_Z z) = z mod 256.
Proof.
  unfold BigInt.byte_to_Z, BigInt.byte_of_Z.
  pose proof (Z.mod_pos_bound z 256 ltac:(lia)) as Hm.
  destruct (Byte.of_N (Z.to_N (z mod 256))) as [b|] eqn:E.
  - apply Byte.to_of_N in E. rewrite E. lia.
  - apply Byte.of_N_None_iff in E. lia.
Qed.

Lemma byte_to_Z_inj (a b : byte) : BigInt.byte_to_Z a = BigInt.byte_to_Z b -> a = b.
Proof.
  unfold BigInt.byte_to_Z. intros E. apply N2Z.inj in E.
  assert (Some a = Some b) as [= ->]; [|done].
  by rewrite <- (Byte.of_to_N a), <- (Byte.of_to_N b), E.
Qed.

Lemma fold_SetBytes (buf : list byte) (acc : Z) :
  fold_left (fun a b => a * 256 + BigInt.byte_to_Z b) buf acc
  = acc * 256 ^ Z.of_nat (length buf) + BigInt.SetBytes buf.
Proof.
  unfold BigInt.SetBytes. revert acc.
  induction buf as [|b buf IH]; intros acc.
  - simpl. lia.
  - cbn [fold_left length]. rewrite IH, (IH (0 * 256 + _)).
    rewrite Nat2Z.inj_succ, Z.pow_succ_r by lia. lia.
Qed.

Lemma SetBytes_cons (b : byte) (buf : list byte) :
  BigInt.SetBytes (b :: buf)
  = BigInt.byte_to_Z b * 256 ^ Z.of_nat (length buf) + BigInt.SetBytes buf.
Proof.
  unfold BigInt.SetBytes at 1. cbn [fold_left]. rewrite fold_SetBytes. lia.
Qed.

Lemma SetBytes_app (a b : list byte) :
  BigInt.SetBytes (a ++ b)
  = BigInt.SetBytes a * 256 ^ Z.of_nat (length b) + BigInt.SetBytes b.
Proof.
  unfold BigInt.SetBytes at 1. rewrite fold_left_app, fold_SetBytes.
  reflexivity.
Qed.

Lemma SetBytes_range (buf : list byte) :
  0 <= BigInt.SetBytes buf < 256 ^ Z.of_nat (length buf).
Proof.
  induction buf as [|b buf IH].
  - cbn. lia.
  - rewrite SetBytes_cons. cbn [length].
    rewrite Nat2Z.inj_succ, Z.pow_succ_r by lia.
    pose proof (byte_to_Z_range b). nia.
Qed.

Lemma SetBytes_zeros (n : nat) : BigInt.SetBytes (replicate n x00) = 0.
Proof.
  induction n as [|n IH]; [reflexivity|].
  cbn [replicate]. rewrite SetBytes_cons, IH. reflexivity.
Qed.

Lemma SetBytes_pad (n : nat) (buf : list byte) :
  BigInt.SetBytes (replicate n x00 ++ buf) = BigInt.SetBytes buf.
Proof. rewrite SetBytes_app, SetBytes_zeros. lia. Qed.

Lemma SetBytes_snoc (buf : list byte) (b : byte) :
  BigInt.SetBytes (buf ++ [b]) = BigInt.SetBytes buf * 256 + BigInt.byte_to_Z b.
Proof.
  rewrite SetBytes_app. cbn [length]. unfold BigInt.SetBytes at 2. cbn. lia.
Qed.

Lemma bit_length_bound (n : Z) : 0 <= n -> n < 2 ^ Z.of_nat (BigInt.bit_length n).
Proof.
  intros Hn. destruct n as [|p|p]; [cbn; lia| |lia].
  cbn [BigInt.bit_length]. clear Hn.
  induction p as [p IH|p IH|]; cbn [Pos.size_nat];
    rewrite ?Nat2Z.inj_succ, ?Z.pow_succ_r by lia; lia.
Qed.

Lemma digits_le_value (fuel : nat) (n : Z) :
  0 <= n < 2 ^ Z.of_nat fuel ->
  BigInt.SetBytes (rev (BigInt.digits_le fuel n)) = n.
Proof.
  revert n. induction fuel as [|fuel IH]; intros n Hn.
  - cbn in *. lia.
  - cbn [BigInt.digits_le]. destruct (Z.leb_spec n 0) as [H0|H0].
    + cbn. lia.
    + cbn [rev]. rewrite SetBytes_snoc, byte_to_Z_of_Z, IH.
      * pose proof (Z.div_mod n 256). lia.
      * rewrite Nat2Z.inj_succ, Z.pow_succ_r in Hn by lia.
        split; [apply Z.div_pos; lia|].
        apply Z.div_lt_upper_bound; lia.
Qed.

Lemma digits_le_length (fuel : nat) (n : Z) (k : nat) :
  0 <= n < 256 ^ Z.of_nat k -> (length (BigInt.digits_le fuel n) <= k)%nat.
Proof.
  revert n k. induction fuel as [|fuel IH]; intros n k Hn.
  - cbn. lia.
  - cbn [BigInt.digits_le]. destruct (Z.leb_spec n 0) as [H0|H0].
    + cbn. lia.
    + destruct k as [|k]; [cbn in Hn; lia|].
      cbn [length]. apply le_n_S, IH.
      rewrite Nat2Z.inj_succ, Z.pow_succ_r in Hn by lia.
      split; [apply Z.div_pos; lia|].
      apply Z.div_lt_upper_bound; lia.
Qed.

Lemma SetBytes_Bytes (n : Z) : 0 <= n -> BigInt.SetBytes (BigInt.Bytes n) = n.
Proof.
  intros Hn. unfold BigInt.Bytes. rewrite Z.abs_eq by done.
  apply digits_le_value. split; [done|]. by apply bit_length_bound.
Qed.

Lemma Bytes_length (n : Z) (k : nat) :
  0 <= n < 256 ^ Z.of_nat k -> (length (BigInt.Bytes n) <= k)%nat.
Proof.
  intros Hn. unfold BigInt.Bytes. rewrite Z.abs_eq by lia.
  rewrite length_rev. by apply digits_le_length.
Qed.

(** ** Slices: the header shift *)

(** Discharges the bounds test of a slice operation. *)
Ltac bounds_ok :=
  symmetry; apply andb_true_intro;
  split; [apply Z.leb_le | first [apply Z.leb_le | apply Z.ltb_lt]]; cbn [length]; lia.

Lemma copy_at_shift (p : list byte) (x : byte) :
  Slice.copy_at (p ++ [x]) 1 p = take 1 (p ++ [x]) ++ p.
Proof.
  unfold Slice.copy_at.
  assert (length (p ++ [x]) = S (length p)) as -> by (rewrite length_app; cbn; lia).
  replace (Nat.min (S (length p) - 1) (length p)) with (length p) by lia.
  rewrite (take_ge p) by lia.
  rewrite drop_ge by (rewrite length_app; cbn; lia).
  by rewrite app_nil_r.
Qed.

Lemma store_0_shifted (p : list byte) (x h : byte) :
  Slice.store (take 1 (p ++ [x]) ++ p) 0 h = Ret (h :: p).
Proof. destruct p as [|a p]; reflexivity. Qed.

Lemma from_1_append (p : list byte) (x : byte) :
  Slice.from (Slice.append p x) 1 = Ret (drop 1 (p ++ [x])).
Proof.
  unfold Slice.append, Slice.from.
  assert (length (p ++ [x]) = S (length p)) as -> by (rewrite length_app; cbn; lia).
  by replace ((0 <=? 1) && (1 <=? Z.of_nat (S (length p)))) with true by bounds_ok.
Qed.

Lemma upto_append (p : list byte) (x : byte) :
  Slice.upto (Slice.append p x) (Z.of_nat (length (Slice.append p x)) - 1) = Ret p.
Proof.
  unfold Slice.append, Slice.upto.
  assert (length (p ++ [x]) = S (length p)) as -> by (rewrite length_app; cbn; lia).
  replace (Z.of_nat (S (length p)) - 1) with (Z.of_nat (length p)) by lia.
  replace ((0 <=? Z.of_nat (length p)) && (Z.of_nat (length p) <=? Z.of_nat (S (length p))))
    with true by bounds_ok.
  by rewrite Nat2Z.id, take_app_length.
Qed.

(** Appending a placeholder, copying the payload one position to the right
    and storing the header at index 0 gives the header followed by the
    payload. *)
Lemma header_shift (p : list byte) (h : byte) :
  (let q := Slice.append p x00 in
   dst ← Slice.from q 1;
   src ← Slice.upto q (Z.of_nat (length q) - 1);
   Slice.store (Slice.copy_at q 1 src) 0 h) = Ret (h :: p).
Proof.
  cbv zeta. rewrite from_1_append, upto_append. cbn [mbind outcome_bind].
  unfold Slice.append. rewrite copy_at_shift. apply store_0_shifted.
Qed.

Lemma index_cons (b : byte) (s : list byte) : Slice.index (b :: s) 0 = Ret b.
Proof. reflexivity. Qed.

Lemma index_nil (i : Z) : Slice.index [] i = Panicked (IndexOutOfRange i 0).
Proof. unfold Slice.index. by destruct ((0 <=? i) && (i <? Z.of_nat (length []))). Qed.

Lemma from_1_cons (b : byte) (s : list byte) : Slice.from (b :: s) 1 = Ret s.
Proof.
  unfold Slice.from. cbn [length].
  replace ((0 <=? 1) && (1 <=? Z.of_nat (S (length s)))) with true
    by bounds_ok.
  reflexivity.
Qed.

Lemma from_1_nil : Slice.from [] 1 = Panicked (SliceBoundsOutOfRange 1 0 0).
Proof. reflexivity. Qed.

Lemma index_lookup (s : list byte) (i : nat) (b : byte) :
  s !! i = Some b -> Slice.index s (Z.of_nat i) = Ret b.
Proof.
  intros Hl. unfold Slice.index. rewrite Nat2Z.id, Hl.
  apply lookup_lt_Some in Hl.
  replace ((0 <=? Z.of_nat i) && (Z.of_nat i <? Z.of_nat (length s))) with true
    by bounds_ok.
  reflexivity.
Qed.

(** ** [btcec]: serialisation of a scalar *)

Section BtcecFacts.
Context `{Curve}.

Lemma Serialize_value (p : btcec.PrivateKey) :
  0 <= btcec.D p -> BigInt.SetBytes (btcec.Serialize p) = btcec.D p.
Proof.
  intros HD. unfold btcec.Serialize, btcec.paddedAppend.
  rewrite app_nil_l, SetBytes_pad. by apply SetBytes_Bytes.
Qed.

Lemma Serialize_length (p : btcec.PrivateKey) :
  0 <= btcec.D p < 2 ^ 256 -> length (btcec.Serialize p) = 32%nat.
Proof.
  intros HD. unfold btcec.Serialize, btcec.paddedAppend, btcec.PrivKeyBytesLen.
  rewrite app_nil_l, length_app, length_replicate.
  assert (length (BigInt.Bytes (btcec.D p)) <= 32)%nat as Hlen.
  { apply Bytes_length. change (256 ^ Z.of_nat 32) with (2 ^ 256). exact HD. }
  lia.
Qed.

Lemma valid_scalar_range (d : Z) : valid_scalar d = true -> 0 < d < 2 ^ 256.
Proof.
  unfold valid_scalar. intros [H1 H2]%andb_prop.
  apply Z.ltb_lt in H1, H2. split; [done|].
  eapply Z.lt_trans; [exact H2|]. reflexivity.
Qed.

End BtcecFacts.

(** ** [key.go]: what each function computes *)

Section KeyFacts.
Context `{Curve} `{Base58} `{SHA256} `{RIPEMD160}.

Lemma header_loop_cons (b : byte) (pb hs : list byte) (ok : bool) :
  header_loop (b :: pb) hs ok = Ret (ok || bool_decide (b ∈ hs)).
Proof.
  revert ok. induction hs as [|h hs IH]; intros ok.
  - cbn. by rewrite orb_false_r.
  - cbn [header_loop]. rewrite index_cons. cbn [mbind outcome_bind].
    rewrite IH. f_equal.
    destruct (Byte.eqb b h) eqn:E.
    + apply Byte.byte_dec_bl in E as ->.
      rewrite (bool_decide_true (h ∈ h :: hs)) by (apply elem_of_cons; by left).
      by rewrite orb_true_r.
    + apply Byte.eqb_false in E. f_equal.
      apply bool_decide_ext. rewrite elem_of_cons.
      split; [by right | intros [?|?]; [congruence|assumption]].
Qed.

Lemma header_loop_nil (h : byte) (hs : list byte) (ok : bool) :
  header_loop [] (h :: hs) ok = Panicked (IndexOutOfRange 0 0).
Proof. reflexivity. Qed.

(** [FromWIF] on a string that decodes to a non-empty sequence. *)
Lemma FromWIF_decoded (wif : string) (param : Params) (b : byte) (rest : list byte) :
  base58_Decode wif = Ret (b :: rest) ->
  FromWIF wif param =
    if bool_decide (b ∈ DumpedPrivateKeyHeader param) then
      if bool_decide (length rest = 33%nat ∧ rest !! 32%nat = Some x01)
      then Ret (key_of_bytes (take 32 rest) true param)
      else Ret (key_of_bytes rest false param)
    else Err "wif is invalid"%string.
Proof.
  intros Hdec. unfold FromWIF. rewrite Hdec. cbn [mbind outcome_bind].
  rewrite header_loop_cons. cbn [orb mbind outcome_bind].
  destruct (bool_decide (b ∈ DumpedPrivateKeyHeader param)); [|reflexivity].
  cbn [negb length]. unfold btcec.PrivKeyBytesLen.
  destruct (Z.eqb_spec (Z.of_nat (S (length rest))) (32 + 2)) as [Hlen|Hlen].
  - assert (length rest = 33%nat) as Hlen' by lia.
    destruct (rest !! 32%nat) as [flag|] eqn:Hflag;
      [|apply lookup_ge_None in Hflag; lia].
    change (32 + 1) with (Z.of_nat 33).
    rewrite (index_lookup (b :: rest) 33 flag) by done.
    cbn [mbind outcome_bind].
    destruct (Byte.eqb flag x01) eqn:E.
    + apply Byte.byte_dec_bl in E as ->.
      rewrite bool_decide_true by done.
      unfold Slice.upto. cbn [length]. rewrite Hlen'.
      change ((0 <=? Z.of_nat 34 - 1) && (Z.of_nat 34 - 1 <=? Z.of_nat 34))
        with true.
      change (Z.to_nat (Z.of_nat 34 - 1)) with 33%nat.
      cbn [mbind outcome_bind mret outcome_ret take].
      rewrite from_1_cons. reflexivity.
    + apply Byte.eqb_false in E.
      rewrite bool_decide_false by (intros [_ [=]]; congruence).
      cbn [mbind outcome_bind mret outcome_ret]. rewrite from_1_cons.
      reflexivity.
  - rewrite bool_decide_false by (intros [? _]; lia).
    cbn [mbind outcome_bind mret outcome_ret]. rewrite from_1_cons.
    reflexivity.
Qed.

(** [FromWIF] on a string that decodes to the empty sequence. *)
Lemma FromWIF_decoded_nil (wif : string) (param : Params) :
  base58_Decode wif = Ret [] ->
  FromWIF wif param =
    match DumpedPrivateKeyHeader param with
    | [] => Err "wif is invalid"%string
    | _ :: _ => Panicked (IndexOutOfRange 0 0)
    end.
Proof.
  intros Hdec. unfold FromWIF. rewrite Hdec. cbn [mbind outcome_bind].
  by destruct (DumpedPrivateKeyHeader param).
Qed.

(** [WIFAddress] hands the header followed by the payload to the codec. *)
Lemma WIFAddress_encodes (priv : PrivateKey) (h : byte) (hs : list byte) :
  DumpedPrivateKeyHeader (param (priv_PublicKey priv)) = h :: hs ->
  PrivateKey_WIFAddress priv = Ret (base58_Encode (h :: wif_payload priv)).
Proof.
  intros Hh. unfold PrivateKey_WIFAddress, wif_payload. rewrite Hh.
  set (p := if isCompressed (priv_PublicKey priv) then _ else _).
  assert (p = btcec.Serialize (priv_key priv)
              ++ (if isCompressed (priv_PublicKey priv) then [x01] else [])) as ->.
  { subst p. destruct (isCompressed _); [reflexivity|by rewrite app_nil_r]. }
  rewrite from_1_append, upto_append. cbn [mbind outcome_bind].
  rewrite index_cons. cbn [mbind outcome_bind].
  unfold Slice.append. rewrite copy_at_shift, store_0_shifted.
  reflexivity.
Qed.

Lemma WIFAddress_no_header (priv : PrivateKey) :
  DumpedPrivateKeyHeader (param (priv_PublicKey priv)) = [] ->
  PrivateKey_WIFAddress priv = Panicked (IndexOutOfRange 0 0).
Proof.
  intros Hh. unfold PrivateKey_WIFAddress. rewrite Hh.
  rewrite from_1_append, upto_append. reflexivity.
Qed.

Lemma PublicKey_AddressBytes_digest (pub : PublicKey) :
  PublicKey_AddressBytes pub = Ret (ripemd160_digest (PublicKey_Serialize pub)).
Proof. reflexivity. Qed.

Lemma AddressBytes_digest (redeem : list byte) :
  AddressBytes redeem = Ret (ripemd160_digest redeem).
Proof. reflexivity. Qed.

Lemma PublicKey_Address_encodes (pub : PublicKey) :
  PublicKey_Address pub =
    Ret (base58_Encode (AddressHeader (param pub)
                          :: ripemd160_digest (PublicKey_Serialize pub))).
Proof.
  unfold PublicKey_Address. rewrite PublicKey_AddressBytes_digest.
  cbn [mbind outcome_bind].
  rewrite from_1_append, upto_append. cbn [mbind outcome_bind].
  unfold Slice.append. rewrite copy_at_shift, store_0_shifted.
  reflexivity.
Qed.

Lemma Address_encodes (redeem : list byte) (header : byte) :
  Address redeem header = Ret (base58_Encode (header :: ripemd160_digest redeem)).
Proof.
  unfold Address. rewrite AddressBytes_digest. cbn [mbind outcome_bind].
  rewrite from_1_append, upto_append. cbn [mbind outcome_bind].
  unfold Slice.append. rewrite copy_at_shift, store_0_shifted.
  reflexivity.
Qed.

End KeyFacts.

(** ** The base58 codec is reversible *)

Lemma byte_of_Z_to_Z (x : byte) (k : Z) :
  BigInt.byte_of_Z (k * 256 + BigInt.byte_to_Z x) = x.
Proof.
  apply byte_to_Z_inj. rewrite byte_to_Z_of_Z.
  pose proof (byte_to_Z_range x).
  rewrite Z.add_comm, Z.mod_add by lia. apply Z.mod_small. lia.
Qed.

Lemma byte_to_Z_nonzero (a : byte) : a ≠ x00 -> 0 < BigInt.byte_to_Z a.
Proof.
  intros Ha. pose proof (byte_to_Z_range a).
  destruct (Z.eq_dec (BigInt.byte_to_Z a) 0) as [E|E]; [|lia].
  exfalso. apply Ha. by apply byte_to_Z_inj.
Qed.

Lemma SetBytes_positive (l : list byte) :
  l ≠ [] -> head l ≠ Some x00 -> 0 < BigInt.SetBytes l.
Proof.
  destruct l as [|a t]; [done|]. intros _ Hh. rewrite SetBytes_cons.
  assert (a ≠ x00) as Ha by (intros ->; by apply Hh).
  pose proof (byte_to_Z_nonzero a Ha). pose proof (SetBytes_range t).
  assert (0 < 256 ^ Z.of_nat (length t)) by (apply Z.pow_pos_nonneg; lia).
  nia.
Qed.

(** A byte sequence without a leading zero is the [Bytes] of its value. *)
Lemma digits_le_SetBytes (l : list byte) (fuel : nat) :
  head l ≠ Some x00 ->
  BigInt.SetBytes l < 2 ^ Z.of_nat fuel ->
  BigInt.digits_le fuel (BigInt.SetBytes l) = rev l.
Proof.
  revert fuel. induction l as [|x l IH] using rev_ind; intros fuel Hh Hlt.
  - destruct fuel; reflexivity.
  - assert (0 < BigInt.SetBytes (l ++ [x])) as Hpos.
    { apply SetBytes_positive; [by destruct l|done]. }
    destruct fuel as [|fuel]; [cbn in Hlt; lia|].
    cbn [BigInt.digits_le].
    destruct (Z.leb_spec (BigInt.SetBytes (l ++ [x])) 0) as [?|_]; [lia|].
    rewrite rev_app_distr. cbn [rev app].
    rewrite SetBytes_snoc in *. rewrite byte_of_Z_to_Z. f_equal.
    pose proof (byte_to_Z_range x).
    replace ((BigInt.SetBytes l * 256 + BigInt.byte_to_Z x) / 256)
      with (BigInt.SetBytes l)
      by (symmetry; rewrite Z.add_comm, Z.div_add by lia;
          rewrite Z.div_small by lia; lia).
    destruct l as [|a t].
    + destruct fuel; reflexivity.
    + apply IH; [exact Hh|].
      rewrite Nat2Z.inj_succ, Z.pow_succ_r in Hlt by lia. lia.
Qed.

Lemma Bytes_SetBytes (l : list byte) :
  head l ≠ Some x00 -> BigInt.Bytes (BigInt.SetBytes l) = l.
Proof.
  intros Hh. pose proof (SetBytes_range l) as [Hge _].
  unfold BigInt.Bytes. rewrite Z.abs_eq by done.
  rewrite digits_le_SetBytes; [apply rev_involutive|done|].
  by apply bit_length_bound.
Qed.

Lemma leading_zero_bytes_split (b : list byte) :
  b = replicate (Base58Codec.leading_zero_bytes b) x00
        ++ drop (Base58Codec.leading_zero_bytes b) b
  ∧ head (drop (Base58Codec.leading_zero_bytes b) b) ≠ Some x00.
Proof.
  induction b as [|a b [IH1 IH2]]; [done|].
  cbn [Base58Codec.leading_zero_bytes].
  destruct (Byte.eqb a x00) eqn:E.
  - apply Byte.byte_dec_bl in E as ->. cbn [replicate drop app].
    split; [by rewrite <- IH1|done].
  - apply Byte.eqb_false in E. cbn. split; [done|congruence].
Qed.

Lemma digit_table :
  forallb
    (fun d => match Base58Codec.char_digit (Base58Codec.digit_char d) with
              | Some d' => (d' =? d) && Bool.eqb (Ascii.eqb (Base58Codec.digit_char d) "1") (d =? 0)
              | None => false
              end)
    (map Z.of_nat (seq 0 58)) = true.
Proof. vm_compute. reflexivity. Qed.

Lemma digit_in_table (d : Z) : 0 <= d < 58 -> In d (map Z.of_nat (seq 0 58)).
Proof.
  intros Hd. apply in_map_iff. exists (Z.to_nat d).
  split; [lia|]. apply in_seq. lia.
Qed.

Lemma char_digit_digit_char (d : Z) :
  0 <= d < 58 -> Base58Codec.char_digit (Base58Codec.digit_char d) = Some d.
Proof.
  intros Hd. pose proof digit_table as Ht.
  rewrite forallb_forall in Ht. specialize (Ht d (digit_in_table d Hd)).
  destruct (Base58Codec.char_digit _) as [d'|]; [|done].
  apply andb_prop in Ht as [Ht _]. apply Z.eqb_eq in Ht. by subst.
Qed.

Lemma digit_char_not_one (d : Z) :
  0 < d < 58 -> Ascii.eqb (Base58Codec.digit_char d) "1" = false.
Proof.
  intros Hd. pose proof digit_table as Ht.
  rewrite forallb_forall in Ht. specialize (Ht d (digit_in_table d ltac:(lia))).
  destruct (Base58Codec.char_digit _) as [d'|]; [|done].
  apply andb_prop in Ht as [_ Ht]. apply Bool.eqb_prop in Ht. rewrite Ht.
  apply Z.eqb_neq. lia.
Qed.

Lemma value58_digits (ds : list Z) (acc : Z) :
  Forall (fun d => 0 <= d < 58) ds ->
  Base58Codec.value58 (map Base58Codec.digit_char ds) acc
  = Ret (fold_left (fun a d => a * 58 + d) ds acc).
Proof.
  intros Hds. revert acc. induction Hds as [|d ds Hd _ IH]; intros acc.
  - reflexivity.
  - cbn [map Base58Codec.value58 fold_left].
    rewrite char_digit_digit_char by done. apply IH.
Qed.

Lemma value58_ones (z : nat) (cs : list ascii) :
  Base58Codec.value58 (replicate z "1"%char ++ cs) 0 = Base58Codec.value58 cs 0.
Proof. induction z as [|z IH]; [reflexivity|exact IH]. Qed.

Lemma leading_ones_replicate (z : nat) (cs : list ascii) :
  Base58Codec.leading_ones (replicate z "1"%char ++ cs)
  = (z + Base58Codec.leading_ones cs)%nat.
Proof. induction z as [|z IH]; [reflexivity|]. cbn. by rewrite IH. Qed.

Lemma digits58_range (fuel : nat) (n : Z) :
  Forall (fun d => 0 <= d < 58) (Base58Codec.digits58_le fuel n).
Proof.
  revert n. induction fuel as [|fuel IH]; intros n; [constructor|].
  cbn [Base58Codec.digits58_le]. destruct (n <=? 0); [constructor|].
  constructor; [apply Z.mod_pos_bound; lia|apply IH].
Qed.

Lemma digits58_value (fuel : nat) (n : Z) :
  0 <= n < 2 ^ Z.of_nat fuel ->
  fold_left (fun a d => a * 58 + d) (rev (Base58Codec.digits58_le fuel n)) 0 = n.
Proof.
  revert n. induction fuel as [|fuel IH]; intros n Hn.
  - cbn in *. lia.
  - cbn [Base58Codec.digits58_le]. destruct (Z.leb_spec n 0) as [H0|H0].
    + cbn. lia.
    + cbn [rev]. rewrite fold_left_app. cbn [fold_left]. rewrite IH.
      * pose proof (Z.div_mod n 58). lia.
      * rewrite Nat2Z.inj_succ, Z.pow_succ_r in Hn by lia.
        split; [apply Z.div_pos; lia|].
        apply Z.div_lt_upper_bound; lia.
Qed.

(** The most significant base-58 digit is not zero, so no ['1'] leads the
    digits. *)
Lemma digits58_no_leading_one (fuel : nat) (n : Z) (suffix : list ascii) :
  0 <= n < 2 ^ Z.of_nat fuel ->
  Base58Codec.leading_ones
    (map Base58Codec.digit_char (rev (Base58Codec.digits58_le fuel n)) ++ suffix)
  = if n =? 0 then Base58Codec.leading_ones suffix else O.
Proof.
  revert n suffix. induction fuel as [|fuel IH]; intros n suffix Hn.
  - cbn in Hn. assert (n = 0) as -> by lia. reflexivity.
  - cbn [Base58Codec.digits58_le]. destruct (Z.leb_spec n 0) as [H0|H0].
    + assert (n = 0) as -> by lia. reflexivity.
    + destruct (Z.eqb_spec n 0) as [?|_]; [lia|].
      cbn [rev]. rewrite map_app, <- app_assoc. cbn [map app].
      rewrite IH.
      * destruct (Z.eqb_spec (n / 58) 0) as [Hq|Hq]; [|done].
        cbn [Base58Codec.leading_ones].
        rewrite digit_char_not_one; [done|].
        pose proof (Z.div_mod n 58). pose proof (Z.mod_pos_bound n 58). lia.
      * rewrite Nat2Z.inj_succ, Z.pow_succ_r in Hn by lia.
        split; [apply Z.div_pos; lia|].
        apply Z.div_lt_upper_bound; lia.
Qed.

(** [Decode] undoes [Encode] on every byte sequence. *)
Lemma Base58Codec_reversible (b : list byte) :
  Base58Codec.Decode (Base58Codec.Encode b) = Ret b.
Proof.
  unfold Base58Codec.Decode, Base58Codec.Encode.
  rewrite list_ascii_of_string_of_list_ascii.
  pose proof (SetBytes_range b) as [Hge _].
  pose proof (bit_length_bound _ Hge) as Hlt.
  rewrite value58_ones, value58_digits
    by (apply Forall_rev, digits58_range).
  rewrite digits58_value by done. cbn [mbind outcome_bind mret outcome_ret].
  rewrite leading_ones_replicate.
  rewrite <- (app_nil_r (map _ _)), digits58_no_leading_one by done.
  replace (if BigInt.SetBytes b =? 0 then Base58Codec.leading_ones [] else O)
    with O by (by destruct (_ =? _)).
  rewrite Nat.add_0_r.
  destruct (leading_zero_bytes_split b) as [Hsplit Hhead].
  rewrite Hsplit at 2. rewrite SetBytes_pad, Bytes_SetBytes by done.
  by rewrite <- Hsplit.
Qed.

(** ** The claims of the specification *)

Section Claims.
Context `{Curve} `{Base58} `{SHA256} `{RIPEMD160}.




(** C1: for every valid private key whose parameters name a WIF header
    that the decoding parameters accept, over a reversible base58 codec,
    [WIFAddress] returns a string that [FromWIF] decodes to a key with the
    same scalar and the same compression flag, compressed or not. *)
Theorem WIF_round_trip (k : PrivateKey) (param' : Params) (h : byte) (hs : list byte) :
  reversible ->
  valid_scalar (btcec.D (priv_key k)) = true ->
  DumpedPrivateKeyHeader (param (priv_PublicKey k)) = h :: hs ->
  h ∈ DumpedPrivateKeyHeader param' ->
  exists wif k',
    PrivateKey_WIFAddress k = Ret wif
    ∧ FromWIF wif param' = Ret k'
    ∧ btcec.D (priv_key k') = btcec.D (priv_key k)
    ∧ isCompressed (priv_PublicKey k') = isCompressed (priv_PublicKey k).
Proof.
  intros Hrev Hvalid Hh Hin.
  apply valid_scalar_range in Hvalid.
  pose proof (Serialize_length (priv_key k) ltac:(lia)) as Hlen.
  pose proof (Serialize_value (priv_key k) ltac:(lia)) as Hval.
  exists (base58_Encode (h :: wif_payload k)),
    (key_of_bytes (btcec.Serialize (priv_key k))
       (isCompressed (priv_PublicKey k)) param').
  split; [by apply WIFAddress_encodes with hs|].
  split; [|by split].
  rewrite (FromWIF_decoded _ param' h (wif_payload k)) by apply Hrev.
  rewrite bool_decide_true by done.
  unfold wif_payload. destruct (isCompressed (priv_PublicKey k)).
  - rewrite bool_decide_true.
    + by rewrite <- Hlen, take_app_length.
    + split; [by rewrite length_app, Hlen|].
      rewrite lookup_app_r by lia. by rewrite Hlen.
  - rewrite bool_decide_false
      by (intros [Hl _]; rewrite length_app, Hlen in Hl; discriminate Hl).
    by rewrite app_nil_r.
Qed.

(** C2: appending the [0x00] placeholder, copying the payload one position
    to the right and storing the header at index 0 yields the header
    followed by the payload, one byte longer than the payload; and this is
    what [WIFAddress], [(PublicKey) Address] and [Address] hand to the
    base58 encoder. *)
Theorem header_shift_at_every_site :
  (forall (h : byte) (p : list byte),
      (let q := Slice.append p x00 in
       dst ← Slice.from q 1;
       src ← Slice.upto q (Z.of_nat (length q) - 1);
       Slice.store (Slice.copy_at q 1 src) 0 h) = Ret (h :: p)
      ∧ length (h :: p) = (length p + 1)%nat)
  ∧ (forall (priv : PrivateKey) (h : byte) (hs : list byte),
        DumpedPrivateKeyHeader (param (priv_PublicKey priv)) = h :: hs ->
        PrivateKey_WIFAddress priv = Ret (base58_Encode (h :: wif_payload priv)))
  ∧ (forall pub : PublicKey,
        exists digest,
          PublicKey_AddressBytes pub = Ret digest
          ∧ PublicKey_Address pub
            = Ret (base58_Encode (AddressHeader (param pub) :: digest)))
  ∧ (forall (redeem : list byte) (header : byte),
        exists digest,
          AddressBytes redeem = Ret digest
          ∧ Address redeem header = Ret (base58_Encode (header :: digest))).
Proof.
  repeat split.
  - apply header_shift.
  - cbn [length]. lia.
  - intros priv h hs. apply WIFAddress_encodes.
  - intros pub. eexists. split; [apply PublicKey_AddressBytes_digest|].
    apply PublicKey_Address_encodes.
  - intros redeem header. eexists. split; [apply AddressBytes_digest|].
    apply Address_encodes.
Qed.

(** C3 (amended): when the base58 decoding of [addr] is a non-empty byte
    sequence, [DecodeAddress] returns it without its first byte, whatever
    its length (20 bytes for a 21-byte decoding); there is no length check.
    When decoding fails, [DecodeAddress] returns that error. *)
Theorem DecodeAddress_strips_first_byte (addr : string) :
  (forall e, base58_Decode addr = Err e -> DecodeAddress addr = Err e)
  ∧ (forall (b : byte) (rest : list byte),
        base58_Decode addr = Ret (b :: rest) ->
        DecodeAddress addr = Ret rest
        ∧ (length (b :: rest) = 21%nat -> length rest = 20%nat)).
Proof.
  split.
  - intros e He. unfold DecodeAddress. by rewrite He.
  - intros b rest Hd. unfold DecodeAddress. rewrite Hd.
    cbn [mbind outcome_bind]. rewrite from_1_cons.
    split; [reflexivity|]. cbn [length]. lia.
Qed.

(** C4 (amended): for a WIF string whose decoding [b :: rest] starts with a
    recognised header: with 34 bytes the last of which is [0x01], [FromWIF]
    returns a compressed key built from the 32 bytes between header and
    flag; with 33 bytes it returns an uncompressed key built from the 32
    bytes after the header; and in every other case (any other length, or 34
    bytes not ending in [0x01]) it also returns an uncompressed key, built
    from all the bytes after the header: no length is rejected. *)
Theorem FromWIF_by_length (wif : string) (param : Params) (b : byte) (rest : list byte) :
  base58_Decode wif = Ret (b :: rest) ->
  b ∈ DumpedPrivateKeyHeader param ->
  (length (b :: rest) = 34%nat -> rest !! 32%nat = Some x01 ->
   FromWIF wif param = Ret (key_of_bytes (take 32 rest) true param))
  ∧ (length (b :: rest) = 33%nat ->
     FromWIF wif param = Ret (key_of_bytes rest false param))
  ∧ (¬ (length (b :: rest) = 34%nat ∧ rest !! 32%nat = Some x01) ->
     FromWIF wif param = Ret (key_of_bytes rest false param)).
Proof.
  intros Hdec Hin. rewrite (FromWIF_decoded wif param b rest Hdec).
  rewrite bool_decide_true by done. cbn [length].
  split; [|split].
  - intros Hlen Hflag. rewrite bool_decide_true; [done|]. split; [lia|done].
  - intros Hlen. rewrite bool_decide_false; [done|]. intros [? _]. lia.
  - intros Hno. rewrite bool_decide_false; [done|].
    intros [? ?]. apply Hno. split; [lia|done].
Qed.

(** C5: the address digest of a public key is the 160-bit digest of its
    serialisation, the address digest of a redeem script is the 160-bit
    digest of the script, with no 256-bit pass before it; the two paths are
    the same function of the bytes. *)
Theorem address_digest_is_single_hash (pub : PublicKey) (redeem : list byte) :
  PublicKey_AddressBytes pub = Ret (ripemd160_digest (PublicKey_Serialize pub))
  ∧ AddressBytes redeem = Ret (ripemd160_digest redeem)
  ∧ PublicKey_AddressBytes pub = AddressBytes (PublicKey_Serialize pub).
Proof. repeat split. Qed.

(** C6 (amended): [NewPrivateKey] has no error result and accepts every
    byte sequence: the key it returns has the big-endian value of the
    bytes as scalar, zero and values beyond the curve order included, that
    scalar times the generator as public point, and is compressed. *)
Theorem NewPrivateKey_accepts_every_scalar (pb : list byte) (param : Params) :
  NewPrivateKey pb param = key_of_bytes pb true param
  ∧ btcec.D (priv_key (NewPrivateKey pb param)) = BigInt.SetBytes pb
  ∧ pub_key (priv_PublicKey (NewPrivateKey pb param))
    = scalar_mul (BigInt.SetBytes pb) generator
  ∧ isCompressed (priv_PublicKey (NewPrivateKey pb param)) = true.
Proof. repeat split. Qed.

(** C7: for a WIF string whose decoding is non-empty, [FromWIF] returns the
    error "wif is invalid" and no key when the first decoded byte is not
    among [DumpedPrivateKeyHeader]; when it is, the header loop ends with
    [ok = true] and [FromWIF] returns a key. *)
Theorem FromWIF_header_check (wif : string) (param : Params) (b : byte) (rest : list byte) :
  base58_Decode wif = Ret (b :: rest) ->
  (b ∉ DumpedPrivateKeyHeader param ->
   FromWIF wif param = Err "wif is invalid"%string)
  ∧ (b ∈ DumpedPrivateKeyHeader param ->
     header_loop (b :: rest) (DumpedPrivateKeyHeader param) false = Ret true
     ∧ returns (FromWIF wif param)).
Proof.
  intros Hdec. rewrite (FromWIF_decoded wif param b rest Hdec).
  rewrite header_loop_cons. split.
  - intros Hnot. by rewrite bool_decide_false.
  - intros Hin. rewrite bool_decide_true by done. split; [reflexivity|].
    case_bool_decide; eexists; reflexivity.
Qed.

End Claims.

Section MoreClaims.
Context `{Curve} `{Base58} `{SHA256} `{RIPEMD160}.




(** C9: the scalar of [NewPrivateKeyFromPassword p] is the 256-bit digest
    of the bytes of [p], read as a big-endian integer; two calls with the
    same password give the same scalar and the same address. *)
Theorem password_key_is_digest (p1 p2 : string) (param : Params) :
  p1 = p2 ->
  btcec.D (priv_key (NewPrivateKeyFromPassword p1 param))
  = BigInt.SetBytes (sha256_digest (list_byte_of_string p1))
  ∧ btcec.D (priv_key (NewPrivateKeyFromPassword p1 param))
    = btcec.D (priv_key (NewPrivateKeyFromPassword p2 param))
  ∧ returns (PublicKey_Address (priv_PublicKey (NewPrivateKeyFromPassword p1 param)))
  ∧ PublicKey_Address (priv_PublicKey (NewPrivateKeyFromPassword p1 param))
    = PublicKey_Address (priv_PublicKey (NewPrivateKeyFromPassword p2 param)).
Proof.
  intros <-. repeat split.
  rewrite PublicKey_Address_encodes. by eexists.
Qed.

(** C10: when the base58 decoding of the WIF string is empty and there is
    a candidate header, [FromWIF] reads [pb[0]] of the empty slice and
    panics with an index out of range, before any length is looked at; on a
    non-empty decoding the header loop returns and [FromWIF] does not
    panic. *)
Theorem FromWIF_empty_decoding_panics (wif : string) (param : Params) (pb : list byte) :
  base58_Decode wif = Ret pb ->
  DumpedPrivateKeyHeader param ≠ [] ->
  (pb = [] -> FromWIF wif param = Panicked (IndexOutOfRange 0 0))
  ∧ (pb ≠ [] ->
     returns (header_loop pb (DumpedPrivateKeyHeader param) false)
     ∧ ¬ panics (FromWIF wif param)).
Proof.
  intros Hdec Hhs. split.
  - intros ->. rewrite (FromWIF_decoded_nil wif param Hdec).
    by destruct (DumpedPrivateKeyHeader param).
  - intros Hne. destruct pb as [|b rest]; [done|].
    rewrite header_loop_cons. split; [by eexists|].
    rewrite (FromWIF_decoded wif param b rest Hdec).
    intros [p Hp]. repeat case_bool_decide; discriminate Hp.
Qed.

End MoreClaims.

(** ** The claims on concrete inputs *)

Section Concrete.
#[local] Existing Instances
  Sample.curve Sample.sha256 Sample.ripemd160 Base58Codec.codec.
Import Examples.

Example decode_wif5 : base58_Decode wif5 = Ret (xaa :: scalar5 ++ [x01]).
Proof. vm_compute. reflexivity. Qed.

Example decode_wif7 : base58_Decode wif7 = Ret (xaa :: scalar7).
Proof. vm_compute. reflexivity. Qed.

Example WIFAddress_key5 : PrivateKey_WIFAddress key5 = Ret wif5.
Proof. vm_compute. reflexivity. Qed.

Example WIFAddress_key7 : PrivateKey_WIFAddress key7 = Ret wif7.
Proof. vm_compute. reflexivity. Qed.

Example FromWIF_wif5 : FromWIF wif5 Sample.params = Ret key5.
Proof. reflexivity. Qed.

Example FromWIF_wif7 : FromWIF wif7 Sample.params = Ret key7.
Proof. reflexivity. Qed.

Example Address_key5 :
  PublicKey_Address (priv_PublicKey key5) = Ret "2R2j2w42i8bbxzJYde5gq5gC8RWmi"%string.
Proof. vm_compute. reflexivity. Qed.

Example DecodeAddress_key5 :
  DecodeAddress "2R2j2w42i8bbxzJYde5gq5gC8RWmi" = Ret (replicate 19 x00 ++ [x05]).
Proof. vm_compute. reflexivity. Qed.

Example WIFAddress_without_header :
  PrivateKey_WIFAddress
    (key_of_bytes scalar5 true
       {| DumpedPrivateKeyHeader := []; AddressHeader := x17; P2SHHeader := x05;
          HDPrivateKeyID := []; HDPublicKeyID := [] |})
  = Panicked (IndexOutOfRange 0 0).
Proof. vm_compute. reflexivity. Qed.

Example DecodeAddress_empty :
  DecodeAddress "" = Panicked (SliceBoundsOutOfRange 1 0 0).
Proof. vm_compute. reflexivity. Qed.

Lemma WIF_round_trip_witness :
  reversible
  ∧ valid_scalar (btcec.D (priv_key key7)) = true
  ∧ exists wif k',
      PrivateKey_WIFAddress key7 = Ret wif
      ∧ FromWIF wif Sample.params = Ret k'
      ∧ btcec.D (priv_key k') = btcec.D (priv_key key7)
      ∧ isCompressed (priv_PublicKey k') = isCompressed (priv_PublicKey key7).
Proof.
  split; [exact Base58Codec_reversible|]. split; [reflexivity|].
  apply (WIF_round_trip key7 Sample.params xaa []).
  - exact Base58Codec_reversible.
  - reflexivity.
  - reflexivity.
  - constructor.
Defined.

Lemma header_shift_at_every_site_witness :
  DumpedPrivateKeyHeader (param (priv_PublicKey key5)) = [xaa]
  ∧ PrivateKey_WIFAddress key5 = Ret (base58_Encode (xaa :: wif_payload key5)).
Proof.
  split; [reflexivity|].
  apply (proj1 (proj2 header_shift_at_every_site) key5 xaa []).
  reflexivity.
Defined.

Lemma DecodeAddress_strips_first_byte_witness :
  base58_Decode short_address = Ret [x17; x05]
  ∧ DecodeAddress short_address = Ret [x05].
Proof.
  assert (base58_Decode short_address = Ret [x17; x05]) as Hdec
    by (vm_compute; reflexivity).
  split; [exact Hdec|].
  exact (proj1 (proj2 (DecodeAddress_strips_first_byte short_address) x17 [x05] Hdec)).
Defined.

(** C3, as stated, fails: an address that decodes to two bytes is not
    rejected; its second byte is returned. *)
Lemma DecodeAddress_accepts_short_address :
  base58_Decode short_address = Ret [x17; x05]
  ∧ length [x17; x05] ≠ 21%nat
  ∧ DecodeAddress short_address = Ret [x05]
  ∧ ¬ fails (DecodeAddress short_address).
Proof.
  assert (DecodeAddress short_address = Ret [x05]) as Hd
    by (vm_compute; reflexivity).
  split; [vm_compute; reflexivity|]. split; [discriminate|].
  split; [exact Hd|]. rewrite Hd. intros [e He]. discriminate He.
Qed.

Lemma FromWIF_by_length_witness :
  base58_Decode wif5 = Ret (xaa :: scalar5 ++ [x01])
  ∧ xaa ∈ DumpedPrivateKeyHeader Sample.params
  ∧ FromWIF wif5 Sample.params = Ret (key_of_bytes scalar5 true Sample.params).
Proof.
  assert (base58_Decode wif5 = Ret (xaa :: scalar5 ++ [x01])) as Hdec
    by (vm_compute; reflexivity).
  assert (xaa ∈ DumpedPrivateKeyHeader Sample.params) as Hin by constructor.
  split; [exact Hdec|]. split; [exact Hin|].
  apply (proj1 (FromWIF_by_length wif5 Sample.params xaa (scalar5 ++ [x01]) Hdec Hin));
    reflexivity.
Defined.

(** C4, as stated, fails: a WIF string that decodes to two bytes, a
    recognised header and one more, is not rejected; [FromWIF] returns
    the uncompressed key of scalar 5. *)
Lemma FromWIF_accepts_short_wif :
  base58_Decode short_wif = Ret [xaa; x05]
  ∧ xaa ∈ DumpedPrivateKeyHeader Sample.params
  ∧ length [xaa; x05] ≠ 33%nat ∧ length [xaa; x05] ≠ 34%nat
  ∧ FromWIF short_wif Sample.params = Ret (key_of_bytes [x05] false Sample.params)
  ∧ ¬ fails (FromWIF short_wif Sample.params).
Proof.
  assert (FromWIF short_wif Sample.params
          = Ret (key_of_bytes [x05] false Sample.params)) as Hw
    by reflexivity.
  split; [vm_compute; reflexivity|]. split; [constructor|].
  split; [discriminate|]. split; [discriminate|].
  split; [exact Hw|]. rewrite Hw. intros [e He]. discriminate He.
Qed.

(** C6, as stated, fails: the 32 zero bytes and the 32 bytes [0xff] are
    not valid scalars, and [NewPrivateKey] returns keys with these
    scalars. *)
Lemma NewPrivateKey_accepts_invalid_scalars :
  length zeros32 = 32%nat
  ∧ valid_scalar (BigInt.SetBytes zeros32) = false
  ∧ btcec.D (priv_key (NewPrivateKey zeros32 Sample.params)) = 0
  ∧ length ones32 = 32%nat
  ∧ valid_scalar (BigInt.SetBytes ones32) = false
  ∧ btcec.D (priv_key (NewPrivateKey ones32 Sample.params)) = 2 ^ 256 - 1
  ∧ ¬ fails (Ret (NewPrivateKey zeros32 Sample.params)).
Proof.
  split; [reflexivity|]. split; [reflexivity|]. split; [reflexivity|].
  split; [reflexivity|]. split; [reflexivity|]. split; [reflexivity|].
  intros [e He]. discriminate He.
Qed.

Lemma FromWIF_header_check_witness :
  base58_Decode foreign_wif = Ret [xbb; x05]
  ∧ (xbb ∉ DumpedPrivateKeyHeader Sample.params)
  ∧ FromWIF foreign_wif Sample.params = Err "wif is invalid"%string.
Proof.
  assert (base58_Decode foreign_wif = Ret [xbb; x05]) as Hdec
    by (vm_compute; reflexivity).
  assert (xbb ∉ DumpedPrivateKeyHeader Sample.params) as Hnot.
  { intros Hin. apply list_elem_of_singleton in Hin. discriminate Hin. }
  split; [exact Hdec|]. split; [exact Hnot|].
  exact (proj1 (FromWIF_header_check foreign_wif Sample.params xbb [x05] Hdec) Hnot).
Defined.


Lemma password_key_is_digest_witness :
  btcec.D (priv_key (NewPrivateKeyFromPassword "hello" Sample.params))
  = BigInt.SetBytes (sha256_digest (list_byte_of_string "hello"))
  ∧ PublicKey_Address (priv_PublicKey (NewPrivateKeyFromPassword "hello" Sample.params))
    = PublicKey_Address (priv_PublicKey (NewPrivateKeyFromPassword "hello" Sample.params)).
Proof.
  destruct (password_key_is_digest "hello" "hello" Sample.params eq_refl)
    as (Hd & _ & _ & Ha).
  split; [exact Hd|exact Ha].
Defined.

Lemma FromWIF_empty_decoding_panics_witness :
  base58_Decode "" = Ret []
  ∧ DumpedPrivateKeyHeader Sample.params ≠ []
  ∧ FromWIF "" Sample.params = Panicked (IndexOutOfRange 0 0).
Proof.
  assert (base58_Decode "" = Ret []) as Hdec by reflexivity.
  assert (DumpedPrivateKeyHeader Sample.params ≠ []) as Hhs by discriminate.
  split; [exact Hdec|]. split; [exact Hhs|].
  exact (proj1 (FromWIF_empty_decoding_panics "" Sample.params [] Hdec Hhs) eq_refl).
Defined.

End Concrete.

(** * Further properties of [key.go] *)

(** ** Serialising a scalar, continued *)

Lemma Bytes_length_lower (n : Z) (k : nat) :
  256 ^ Z.of_nat k <= n -> (k < length (BigInt.Bytes n))%nat.
Proof.
  intros Hn.
  assert (0 <= n) as H0 by (pose proof (Z.pow_pos_nonneg 256 (Z.of_nat k)); lia).
  pose proof (SetBytes_range (BigInt.Bytes n)) as [_ Hlt].
  rewrite SetBytes_Bytes in Hlt by done.
  destruct (Nat.lt_ge_cases k (length (BigInt.Bytes n))) as [?|Hle]; [done|].
  pose proof (Z.pow_le_mono_r 256 (Z.of_nat (length (BigInt.Bytes n))) (Z.of_nat k)).
  lia.
Qed.

Section SerializeFacts.
Context `{Curve}.

(** A 32-byte scalar is serialised to itself. *)
Lemma Serialize_SetBytes (s : list byte) (P : Point) :
  length s = 32%nat ->
  btcec.Serialize {| btcec.PubKey := P; btcec.D := BigInt.SetBytes s |} = s.
Proof.
  intros Hlen. unfold btcec.Serialize, btcec.paddedAppend, btcec.PrivKeyBytesLen.
  cbn [btcec.D]. rewrite app_nil_l.
  destruct (leading_zero_bytes_split s) as [Hsplit Hhead].
  remember (Base58Codec.leading_zero_bytes s) as z eqn:Hz.
  remember (drop z s) as s' eqn:Hs'. clear Hz Hs'. subst s.
  rewrite length_app, length_replicate in Hlen.
  rewrite SetBytes_pad, Bytes_SetBytes by done.
  by replace (Z.to_nat (32 - Z.of_nat (length s'))) with z by lia.
Qed.

(** A scalar of 2^256 or more is serialised without padding, to more than
    32 bytes. *)
Lemma Serialize_oversized (p : btcec.PrivateKey) :
  2 ^ 256 <= btcec.D p ->
  btcec.Serialize p = BigInt.Bytes (btcec.D p)
  ∧ (32 < length (btcec.Serialize p))%nat.
Proof.
  intros HD.
  pose proof (Bytes_length_lower (btcec.D p) 32 HD) as Hlen.
  assert (btcec.Serialize p = BigInt.Bytes (btcec.D p)) as ->; [|done].
  unfold btcec.Serialize, btcec.paddedAppend, btcec.PrivKeyBytesLen.
  rewrite app_nil_l.
  by replace (Z.to_nat (32 - Z.of_nat (length (BigInt.Bytes (btcec.D p))))) with O by lia.
Qed.

End SerializeFacts.

(** ** Export, import and addresses *)

Section Further.
Context `{Curve} `{Base58} `{SHA256} `{RIPEMD160}.

(** Importing what was exported gives the key that [PrivKeyFromBytes] builds
    from the serialised scalar, whenever the scalar fits 32 bytes. *)
Lemma FromWIF_of_export (k : PrivateKey) (param' : Params) (h : byte) :
  reversible ->
  0 <= btcec.D (priv_key k) < 2 ^ 256 ->
  h ∈ DumpedPrivateKeyHeader param' ->
  FromWIF (base58_Encode (h :: wif_payload k)) param'
  = Ret (key_of_bytes (btcec.Serialize (priv_key k))
           (isCompressed (priv_PublicKey k)) param').
Proof.
  intros Hrev HD Hin.
  pose proof (Serialize_length (priv_key k) HD) as Hlen.
  rewrite (FromWIF_decoded _ param' h (wif_payload k)) by apply Hrev.
  rewrite bool_decide_true by done.
  unfold wif_payload. destruct (isCompressed (priv_PublicKey k)).
  - rewrite bool_decide_true.
    + by rewrite <- Hlen, take_app_length.
    + split; [by rewrite length_app, Hlen|].
      rewrite lookup_app_r by lia. by rewrite Hlen.
  - rewrite bool_decide_false
      by (intros [Hl _]; rewrite length_app, Hlen in Hl; discriminate Hl).
    by rewrite app_nil_r.
Qed.

Lemma key_of_bytes_Serialize (raw : list byte) (c : bool) (param : Params) :
  key_of_bytes (btcec.Serialize (priv_key (key_of_bytes raw c param))) c param
  = key_of_bytes raw c param.
Proof.
  pose proof (SetBytes_range raw) as [Hge _].
  unfold key_of_bytes at 1 3. unfold btcec.ScalarBaseMult.
  rewrite Serialize_value by (cbn; lia). reflexivity.
Qed.

(** X1: [WIFAddress] either panics with an index out of range, exactly when
    the key's parameters list no WIF header, or returns the encoding of the
    first listed header followed by the payload; it never returns an
    error. *)
Theorem WIFAddress_panics_iff_no_header (priv : PrivateKey) :
  (DumpedPrivateKeyHeader (param (priv_PublicKey priv)) = []
   ∧ PrivateKey_WIFAddress priv = Panicked (IndexOutOfRange 0 0))
  ∨ (exists h hs,
        DumpedPrivateKeyHeader (param (priv_PublicKey priv)) = h :: hs
        ∧ PrivateKey_WIFAddress priv = Ret (base58_Encode (h :: wif_payload priv))).
Proof.
  destruct (DumpedPrivateKeyHeader (param (priv_PublicKey priv))) as [|h hs] eqn:Hh.
  - left. split; [done|]. by apply WIFAddress_no_header.
  - right. exists h, hs. split; [done|]. by apply WIFAddress_encodes with hs.
Qed.

(** X2: over a reversible codec, decoding the address of a public key, or of
    a redeem script, gives back the header byte followed by the 160-bit
    digest, and [DecodeAddress] returns that digest. *)
Theorem DecodeAddress_of_Address (pub : PublicKey) (redeem : list byte) (header : byte) :
  reversible ->
  (exists addr digest,
      PublicKey_Address pub = Ret addr
      ∧ PublicKey_AddressBytes pub = Ret digest
      ∧ base58_Decode addr = Ret (AddressHeader (param pub) :: digest)
      ∧ DecodeAddress addr = Ret digest)
  ∧ (exists addr digest,
        Address redeem header = Ret addr
        ∧ AddressBytes redeem = Ret digest
        ∧ base58_Decode addr = Ret (header :: digest)
        ∧ DecodeAddress addr = Ret digest).
Proof.
  intros Hrev. split.
  - eexists _, _. split; [apply PublicKey_Address_encodes|].
    split; [apply PublicKey_AddressBytes_digest|]. split; [apply Hrev|].
    unfold DecodeAddress. rewrite Hrev. cbn [mbind outcome_bind].
    apply from_1_cons.
  - eexists _, _. split; [apply Address_encodes|].
    split; [apply AddressBytes_digest|]. split; [apply Hrev|].
    unfold DecodeAddress. rewrite Hrev. cbn [mbind outcome_bind].
    apply from_1_cons.
Qed.

(** X3: when base58 decoding succeeds, [DecodeAddress] panics (slice bounds
    out of range) exactly when the decoded sequence is empty. *)
Theorem DecodeAddress_panics_iff_empty (addr : string) (pb : list byte) :
  base58_Decode addr = Ret pb ->
  (pb = [] -> DecodeAddress addr = Panicked (SliceBoundsOutOfRange 1 0 0))
  ∧ (panics (DecodeAddress addr) <-> pb = []).
Proof.
  intros Hdec. unfold DecodeAddress. rewrite Hdec. cbn [mbind outcome_bind].
  destruct pb as [|b rest].
  - split; [done|]. split; [done|]. intros _. by eexists.
  - rewrite from_1_cons. split; [done|]. split; [|done].
    intros [p Hp]. discriminate Hp.
Qed.


(** X12: a key built by [NewPrivateKey] from bytes whose value is below
    2^256 is given back unchanged (scalar, public point, flag and parameters)
    by [FromWIF] applied to its [WIFAddress], over a reversible codec and
    parameters that list a WIF header. *)
Theorem NewPrivateKey_export_import (pb : list byte) (param : Params) (h : byte) (hs : list byte) :
  reversible ->
  BigInt.SetBytes pb < 2 ^ 256 ->
  DumpedPrivateKeyHeader param = h :: hs ->
  exists wif,
    PrivateKey_WIFAddress (NewPrivateKey pb param) = Ret wif
    ∧ FromWIF wif param = Ret (NewPrivateKey pb param).
Proof.
  intros Hrev Hlt Hh. pose proof (SetBytes_range pb) as [Hge _].
  change (NewPrivateKey pb param) with (key_of_bytes pb true param).
  exists (base58_Encode (h :: wif_payload (key_of_bytes pb true param))).
  split; [by apply WIFAddress_encodes with hs|].
  rewrite FromWIF_of_export;
    [|done|cbn; lia|rewrite Hh; apply elem_of_cons; by left].
  f_equal. apply key_of_bytes_Serialize.
Qed.

End Further.

(** ** Public keys, signatures and the shape of WIF strings *)

Section FurtherKeys.
Context `{Curve} `{Base58} `{SHA256} `{RIPEMD160}.

(** X5: parsing the serialisation of a public key with [NewPublicKey] gives
    the same public key, compression flag included, when the curve parses
    its own encoding of the point and the encodings have their standard
    lengths (33 bytes compressed, 65 uncompressed). *)
Theorem NewPublicKey_of_Serialize (pub : PublicKey) :
  ParsePubKey (PublicKey_Serialize pub) = Ret (pub_key pub) ->
  length (SerializeCompressed (pub_key pub)) = 33%nat ->
  length (SerializeUncompressed (pub_key pub)) = 65%nat ->
  NewPublicKey (PublicKey_Serialize pub) (param pub) = Ret pub.
Proof.
  intros Hparse Hc Hu. unfold NewPublicKey. rewrite Hparse.
  cbn [mbind outcome_bind mret outcome_ret].
  destruct pub as [P c p]. unfold PublicKey_Serialize. cbn in *.
  destruct c; [rewrite Hc|rewrite Hu]; reflexivity.
Qed.

(** X6: a signature made by [Sign] is accepted by [Verify] under the key's
    own public key, when the curve's signature for the hash survives
    serialising and parsing and passes the curve's check. *)
Theorem Sign_then_Verify (priv : PrivateKey) (hash : list byte) (sig : Signature) :
  ecdsa_Sign (btcec.D (priv_key priv)) hash = Ret sig ->
  ParseSignature (Signature_Serialize sig) = Ret sig ->
  Signature_Verify sig hash (pub_key (priv_PublicKey priv)) = true ->
  exists signature,
    PrivateKey_Sign priv hash = Ret signature
    ∧ PublicKey_Verify (priv_PublicKey priv) signature hash = Ret tt.
Proof.
  intros Hsign Hparse Hok. exists (Signature_Serialize sig).
  unfold PrivateKey_Sign, PublicKey_Verify. rewrite Hsign.
  cbn [mbind outcome_bind mret outcome_ret]. rewrite Hparse.
  cbn [mbind outcome_bind]. by rewrite Hok.
Qed.

(** X7: [Verify] returns nil exactly when the signature parses and the
    curve's check accepts it for the data and this public key; a signature
    that does not parse gives the parser's error, and one that parses but is
    not accepted gives "signature is invalid". [Sign] returns the signer's
    error unchanged. *)
Theorem Verify_accepts_iff (pub : PublicKey) (signature data : list byte) :
  (PublicKey_Verify pub signature data = Ret tt
   <-> exists sig, ParseSignature signature = Ret sig
                   ∧ Signature_Verify sig data (pub_key pub) = true)
  ∧ (forall e, ParseSignature signature = Err e ->
               PublicKey_Verify pub signature data = Err e)
  ∧ (forall sig, ParseSignature signature = Ret sig ->
                 Signature_Verify sig data (pub_key pub) = false ->
                 PublicKey_Verify pub signature data = Err "signature is invalid"%string)
  ∧ (forall priv hash e, ecdsa_Sign (btcec.D (priv_key priv)) hash = Err e ->
                         PrivateKey_Sign priv hash = Err e).
Proof.
  unfold PublicKey_Verify, PrivateKey_Sign. repeat split.
  - destruct (ParseSignature signature) as [sig|e|p|e]; cbn; try discriminate.
    destruct (Signature_Verify sig data (pub_key pub)) eqn:Hv; cbn;
      [|discriminate].
    intros _. by exists sig.
  - intros (sig & -> & Hv). cbn. by rewrite Hv.
  - by intros e ->.
  - intros sig -> Hv. cbn. by rewrite Hv.
  - by intros priv hash e ->.
Qed.

(** X8: importing a WIF string whose decoding is a recognised header
    followed by 32 scalar bytes, with or without the [0x01] flag, and
    exporting the key again encodes the same payload under the first listed
    header, whichever listed header the string carried. *)
Theorem FromWIF_then_WIFAddress (wif : string) (prm : Params)
    (h h0 : byte) (hs s payload : list byte) :
  base58_Decode wif = Ret (h :: payload) ->
  DumpedPrivateKeyHeader prm = h0 :: hs ->
  h ∈ h0 :: hs ->
  length s = 32%nat ->
  payload = s ∨ payload = s ++ [x01] ->
  exists k,
    FromWIF wif prm = Ret k
    ∧ PrivateKey_WIFAddress k = Ret (base58_Encode (h0 :: payload)).
Proof.
  intros Hdec Hh Hin Hlen Hpay.
  rewrite (FromWIF_decoded wif prm h payload Hdec).
  rewrite bool_decide_true by (by rewrite Hh).
  destruct Hpay as [->| ->].
  - rewrite bool_decide_false by (intros [Hl _]; lia).
    eexists. split; [reflexivity|].
    rewrite (WIFAddress_encodes _ h0 hs) by done.
    unfold wif_payload. cbn [priv_key priv_PublicKey isCompressed key_of_bytes].
    by rewrite Serialize_SetBytes, app_nil_r.
  - rewrite bool_decide_true.
    + rewrite <- Hlen, take_app_length. eexists. split; [reflexivity|].
      rewrite (WIFAddress_encodes _ h0 hs) by done.
      unfold wif_payload. cbn [priv_key priv_PublicKey isCompressed key_of_bytes].
      by rewrite Serialize_SetBytes.
    + split; [rewrite length_app; cbn; lia|].
      rewrite lookup_app_r by lia. by rewrite Hlen.
Qed.

(** X9: for a compressed key with a non-negative scalar, exporting and
    importing keeps the compression flag, and the scalar, exactly when the
    scalar is below 2^256; from 2^256 on the imported key is uncompressed and
    its scalar is the exported one times 256 plus 1. *)
Theorem compressed_round_trip_iff (k : PrivateKey) (param' : Params) (h : byte) (hs : list byte) :
  reversible ->
  isCompressed (priv_PublicKey k) = true ->
  0 <= btcec.D (priv_key k) ->
  DumpedPrivateKeyHeader (param (priv_PublicKey k)) = h :: hs ->
  h ∈ DumpedPrivateKeyHeader param' ->
  exists wif k',
    PrivateKey_WIFAddress k = Ret wif
    ∧ FromWIF wif param' = Ret k'
    ∧ (isCompressed (priv_PublicKey k') = true <-> btcec.D (priv_key k) < 2 ^ 256)
    ∧ (btcec.D (priv_key k') = btcec.D (priv_key k) <-> btcec.D (priv_key k) < 2 ^ 256)
    ∧ (2 ^ 256 <= btcec.D (priv_key k) ->
       btcec.D (priv_key k') = btcec.D (priv_key k) * 256 + 1).
Proof.
  intros Hrev Hc HD Hh Hin.
  exists (base58_Encode (h :: wif_payload k)).
  destruct (Z.lt_ge_cases (btcec.D (priv_key k)) (2 ^ 256)) as [Hlt|Hge].
  - exists (key_of_bytes (btcec.Serialize (priv_key k))
              (isCompressed (priv_PublicKey k)) param').
    split; [by apply WIFAddress_encodes with hs|].
    split; [by apply FromWIF_of_export|].
    cbn [priv_key priv_PublicKey isCompressed key_of_bytes btcec.D].
    rewrite Serialize_value by done. rewrite Hc.
    split; [done|]. split; [done|]. lia.
  - destruct (Serialize_oversized (priv_key k) Hge) as [_ Hlen].
    exists (key_of_bytes (wif_payload k) false param').
    split; [by apply WIFAddress_encodes with hs|].
    assert (wif_payload k = btcec.Serialize (priv_key k) ++ [x01]) as Hpay
      by (unfold wif_payload; by rewrite Hc).
    split.
    { rewrite (FromWIF_decoded _ param' h (wif_payload k)) by apply Hrev.
      rewrite bool_decide_true by done.
      rewrite bool_decide_false; [done|].
      intros [Hl _]. rewrite Hpay, length_app in Hl. cbn [length] in Hl. lia. }
    cbn [priv_key priv_PublicKey isCompressed key_of_bytes btcec.D].
    rewrite Hpay, SetBytes_snoc, Serialize_value by done.
    change (BigInt.byte_to_Z x01) with 1.
    split; [split; [discriminate|lia]|]. split; [lia|]. done.
Qed.

(** X10: [FromWIF] returns the decoder's error unchanged, and it returns no
    other error than the decoder's or "wif is invalid". *)
Theorem FromWIF_errors (wif : string) (prm : Params) :
  (forall e, base58_Decode wif = Err e -> FromWIF wif prm = Err e)
  ∧ (forall e, FromWIF wif prm = Err e ->
               base58_Decode wif = Err e ∨ e = "wif is invalid"%string).
Proof.
  split.
  - intros e He. unfold FromWIF. by rewrite He.
  - intros e. destruct (base58_Decode wif) as [[|b rest]|e'|p|e'] eqn:Hdec.
    + rewrite (FromWIF_decoded_nil wif prm Hdec).
      destruct (DumpedPrivateKeyHeader prm); intros [= <-]. by right.
    + rewrite (FromWIF_decoded wif prm b rest Hdec).
      repeat case_bool_decide; intros [= <-]. by right.
    + unfold FromWIF. rewrite Hdec. intros [= <-]. by left.
    + unfold FromWIF. rewrite Hdec. discriminate.
    + unfold FromWIF. rewrite Hdec. discriminate.
Qed.

(** X11: the address of a public key is the script address of its
    serialisation under the parameters' address header. *)
Theorem PublicKey_Address_is_Address (pub : PublicKey) :
  PublicKey_Address pub
  = Address (PublicKey_Serialize pub) (AddressHeader (param pub)).
Proof. by rewrite PublicKey_Address_encodes, Address_encodes. Qed.

(** X13: the key that [FromWIF] returns does not depend on which recognised
    header the string carries: two strings that decode to the same bytes
    after two recognised headers import to the same key. *)
Theorem FromWIF_ignores_which_header (w1 w2 : string) (prm : Params)
    (h1 h2 : byte) (rest : list byte) :
  base58_Decode w1 = Ret (h1 :: rest) ->
  base58_Decode w2 = Ret (h2 :: rest) ->
  h1 ∈ DumpedPrivateKeyHeader prm ->
  h2 ∈ DumpedPrivateKeyHeader prm ->
  FromWIF w1 prm = FromWIF w2 prm ∧ returns (FromWIF w1 prm).
Proof.
  intros Hd1 Hd2 Hin1 Hin2.
  rewrite (FromWIF_decoded w1 prm h1 rest Hd1), (FromWIF_decoded w2 prm h2 rest Hd2).
  rewrite (bool_decide_true (h1 ∈ _)), (bool_decide_true (h2 ∈ _)) by done.
  split; [done|]. case_bool_decide; by eexists.
Qed.


End FurtherKeys.

(** ** The further properties on concrete inputs *)

Section FurtherConcrete.
#[local] Existing Instances
  Sample.curve Sample.sha256 Sample.ripemd160 Base58Codec.codec.
Import Examples.

Lemma DecodeAddress_of_Address_witness :
  reversible
  ∧ exists addr digest,
      PublicKey_Address (priv_PublicKey key5) = Ret addr
      ∧ PublicKey_AddressBytes (priv_PublicKey key5) = Ret digest
      ∧ base58_Decode addr = Ret (AddressHeader (param (priv_PublicKey key5)) :: digest)
      ∧ DecodeAddress addr = Ret digest.
Proof.
  split; [exact Base58Codec_reversible|].
  exact (proj1 (DecodeAddress_of_Address (priv_PublicKey key5) [x51] x05
                  Base58Codec_reversible)).
Defined.

Lemma DecodeAddress_panics_iff_empty_witness :
  base58_Decode "" = Ret []
  ∧ DecodeAddress "" = Panicked (SliceBoundsOutOfRange 1 0 0).
Proof.
  assert (base58_Decode "" = Ret []) as Hdec by reflexivity.
  split; [exact Hdec|].
  exact (proj1 (DecodeAddress_panics_iff_empty "" [] Hdec) eq_refl).
Defined.


Lemma NewPrivateKey_export_import_witness :
  reversible
  ∧ BigInt.SetBytes scalar5 < 2 ^ 256
  ∧ exists wif,
      PrivateKey_WIFAddress (NewPrivateKey scalar5 Sample.params) = Ret wif
      ∧ FromWIF wif Sample.params = Ret (NewPrivateKey scalar5 Sample.params).
Proof.
  assert (BigInt.SetBytes scalar5 < 2 ^ 256) as Hlt by reflexivity.
  split; [exact Base58Codec_reversible|]. split; [exact Hlt|].
  exact (NewPrivateKey_export_import scalar5 Sample.params xaa []
           Base58Codec_reversible Hlt eq_refl).
Defined.

Lemma NewPublicKey_of_Serialize_witness :
  ParsePubKey (PublicKey_Serialize (priv_PublicKey key5))
  = Ret (pub_key (priv_PublicKey key5))
  ∧ NewPublicKey (PublicKey_Serialize (priv_PublicKey key5)) Sample.params
    = Ret (priv_PublicKey key5).
Proof.
  assert (ParsePubKey (PublicKey_Serialize (priv_PublicKey key5))
          = Ret (pub_key (priv_PublicKey key5))) as Hparse by reflexivity.
  split; [exact Hparse|].
  exact (NewPublicKey_of_Serialize (priv_PublicKey key5) Hparse eq_refl eq_refl).
Defined.

Lemma Sign_then_Verify_witness :
  exists signature,
    PrivateKey_Sign key5 hash32 = Ret signature
    ∧ PublicKey_Verify (priv_PublicKey key5) signature hash32 = Ret tt.
Proof.
  exact (Sign_then_Verify key5 hash32 (hash32, 5) eq_refl eq_refl eq_refl).
Defined.

Lemma FromWIF_then_WIFAddress_witness :
  base58_Decode wif5 = Ret (xaa :: scalar5 ++ [x01])
  ∧ exists k,
      FromWIF wif5 params_two_headers = Ret k
      ∧ PrivateKey_WIFAddress k = Ret (base58_Encode (xbb :: scalar5 ++ [x01])).
Proof.
  assert (base58_Decode wif5 = Ret (xaa :: scalar5 ++ [x01])) as Hdec
    by (vm_compute; reflexivity).
  assert (xaa ∈ [xbb; xaa]) as Hin by (apply elem_of_cons; right; constructor).
  split; [exact Hdec|].
  exact (FromWIF_then_WIFAddress wif5 params_two_headers xaa xbb [xaa] scalar5
           (scalar5 ++ [x01]) Hdec eq_refl Hin eq_refl (or_intror eq_refl)).
Defined.

Lemma compressed_round_trip_iff_witness :
  reversible
  ∧ 2 ^ 256 <= btcec.D (priv_key oversized_key)
  ∧ exists wif k',
      PrivateKey_WIFAddress oversized_key = Ret wif
      ∧ FromWIF wif Sample.params = Ret k'
      ∧ isCompressed (priv_PublicKey k') = false
      ∧ btcec.D (priv_key k') = 2 ^ 256 * 256 + 1.
Proof.
  assert (2 ^ 256 <= btcec.D (priv_key oversized_key)) as Hge
    by (apply Z.leb_le; reflexivity).
  assert (0 <= btcec.D (priv_key oversized_key)) as Hnn
    by (apply Z.leb_le; reflexivity).
  assert (xaa ∈ DumpedPrivateKeyHeader Sample.params) as Hin by constructor.
  split; [exact Base58Codec_reversible|]. split; [exact Hge|].
  destruct (compressed_round_trip_iff (H0 := Base58Codec.codec)
              oversized_key Sample.params xaa []
              Base58Codec_reversible eq_refl Hnn eq_refl Hin)
    as (wif & k' & Hw & Hf & Hc & _ & Hd).
  exists wif, k'. split; [exact Hw|]. split; [exact Hf|]. split.
  - destruct (isCompressed (priv_PublicKey k')); [|reflexivity].
    apply proj1 in Hc. specialize (Hc eq_refl). exfalso.
    apply (Z.lt_irrefl (2 ^ 256)). eapply Z.le_lt_trans; [exact Hge|exact Hc].
  - exact (Hd Hge).
Defined.

Lemma FromWIF_errors_witness :
  base58_Decode "0" = Err "invalid base58 character"%string
  ∧ FromWIF "0" Sample.params = Err "invalid base58 character"%string.
Proof.
  assert (base58_Decode "0" = Err "invalid base58 character"%string) as Hdec
    by reflexivity.
  split; [exact Hdec|].
  exact (proj1 (FromWIF_errors "0" Sample.params) _ Hdec).
Defined.

Lemma FromWIF_ignores_which_header_witness :
  base58_Decode short_wif = Ret [xaa; x05]
  ∧ base58_Decode foreign_wif = Ret [xbb; x05]
  ∧ FromWIF short_wif params_two_headers = FromWIF foreign_wif params_two_headers
  ∧ returns (FromWIF short_wif params_two_headers).
Proof.
  assert (base58_Decode short_wif = Ret [xaa; x05]) as Hd1 by (vm_compute; reflexivity).
  assert (base58_Decode foreign_wif = Ret [xbb; x05]) as Hd2 by (vm_compute; reflexivity).
  assert (xaa ∈ [xbb; xaa]) as Hin1 by (apply elem_of_cons; right; constructor).
  assert (xbb ∈ [xbb; xaa]) as Hin2 by constructor.
  split; [exact Hd1|]. split; [exact Hd2|].
  exact (FromWIF_ignores_which_header short_wif foreign_wif params_two_headers
           xaa xbb [x05] Hd1 Hd2 Hin1 Hin2).
Defined.


End FurtherConcrete.
